(** * Noise dashboard (app.py): period selection, aggregation and violations

    A shallow embedding of the computational part of [app.py].  The script is
    a straight-line Streamlit program: widgets return values, pandas filters
    and aggregates the joined table.  Tables are lists of records, Python
    integers are [Z], readings are exact rationals [Q] (finite float values;
    rounding of float arithmetic is not modelled), and a Python statement that
    can raise returns a [result]. *)

From Stdlib Require Import ZArith QArith List Bool String Ascii Lia.
From Stdlib Require Import Permutation Sorted.
Import ListNotations.
Open Scope Z_scope.

(** ** Python run-time: exceptions, [range] *)

(** The exceptions that matter for the script.  [InvalidPeriodBounds] is the
    error kind named by the specification; no statement of [app.py] raises
    it. *)
Inductive exn : Type :=
| StreamlitAPIException
| ValueError
| IndexError
| StopException
| InvalidPeriodBounds.

Inductive result (A : Type) : Type :=
| Ok (a : A)
| Raise (e : exn).
Arguments Ok {A} a.
Arguments Raise {A} e.

Definition bind {A B : Type} (m : result A) (k : A -> result B) : result B :=
  match m with
  | Ok a => k a
  | Raise e => Raise e
  end.

Notation "x <- m ;; k" := (bind m (fun x => k))
  (at level 61, m at next level, right associativity).

(** [range(a, b)]: the integers from [a] up to [b - 1]; empty when [b <= a]. *)
Definition range (a b : Z) : list Z :=
  map (fun i => a + Z.of_nat i) (seq 0 (Z.to_nat (b - a))).

Definition mem (x : Z) (l : list Z) : bool := existsb (Z.eqb x) l.

(** ** Streamlit's [select_slider]

    [st.sidebar.select_slider(label, options=..., value=...)].  The library
    refuses an empty option list ([StreamlitAPIException]) and looks the
    default [value] up in the options ([ValueError] when it is not one of
    them).  Otherwise the widget returns the default until the user moves the
    slider, and then the option at the chosen position.  [pick] is the user's
    state: [None] when it holds no earlier value (the first run of a
    session), [Some i] for position [i]; a position outside the list cannot
    come from the slider and leaves the default. *)
Definition select_slider (options : list Z) (value : Z) (pick : option nat)
  : result Z :=
  match options with
  | [] => Raise StreamlitAPIException
  | _ :: _ =>
      if mem value options then
        match pick with
        | None => Ok value
        | Some i =>
            match nth_error options i with
            | Some v => Ok v
            | None => Ok value
            end
        end
      else Raise ValueError
  end.

(** ** Comparison periods (lines 94-133) *)

Record Periods : Type := mkPeriods {
  before_months : list Z;
  after_months : list Z;
  comparison_months : list Z
}.

(** Lines 131-133. *)
Definition comparison_periods
  (selected_month before_start before_end after_start after_end : Z) : Periods :=
  let before_months := range before_start (before_end + 1) in
  let after_months := range after_start (after_end + 1) in
  mkPeriods before_months after_months
            (before_months ++ [selected_month] ++ after_months).

(** Lines 131-133 as statements: each is a [list(range(...))] or a list
    concatenation, none of which raises on integers. *)
Definition periods_of_bounds
  (selected_month before_start before_end after_start after_end : Z)
  : result Periods :=
  Ok (comparison_periods selected_month before_start before_end
                         after_start after_end).

(** The user's positions on the four period sliders. *)
Record Picks : Type := mkPicks {
  pick_before_start : option nat;
  pick_before_end : option nat;
  pick_after_start : option nat;
  pick_after_end : option nat
}.

(** Lines 96-133: the four sliders, then the ranges. *)
Definition resolve_periods (selected_month : Z) (u : Picks) : result Periods :=
  before_start <- select_slider (range 1 selected_month)
                                (Z.max 1 (selected_month - 3))
                                (pick_before_start u) ;;
  before_end <- select_slider (range before_start selected_month)
                              (selected_month - 1)
                              (pick_before_end u) ;;
  after_start <- select_slider (range (selected_month + 1) 13)
                               (selected_month + 1)
                               (pick_after_start u) ;;
  after_end <- select_slider (range after_start 13)
                             (Z.min 12 (selected_month + 3))
                             (pick_after_end u) ;;
  periods_of_bounds selected_month before_start before_end after_start after_end.

(** The domain of the four bounds as the specification gives it. *)
Definition valid_bounds
  (selected_month before_start before_end after_start after_end : Z) : Prop :=
  1 <= selected_month <= 12 /\
  1 <= before_start /\ before_start <= before_end /\
  before_end <= selected_month - 1 /\
  selected_month + 1 <= after_start /\ after_start <= after_end /\
  after_end <= 12.

(** ** The tables *)

(** A line of [stations.csv]. *)
Record StationRow : Type := mkStationRow {
  s_Station : string;
  s_Name : string;
  s_Type : string;
  s_City : string;
  s_DayLimit : Q;
  s_NightLimit : Q
}.

(** A line of [station_month.csv]. *)
Record ReadingRow : Type := mkReadingRow {
  r_Station : string;
  r_Month : Z;
  r_Day : Q;
  r_Night : Q
}.

(** A row of the merged frame: the reading's columns, then the station's. *)
Record Merged : Type := mkMerged {
  Station : string;
  Month : Z;
  Day : Q;
  Night : Q;
  Name : string;
  Type_ : string;
  City : string;
  DayLimit : Q;
  NightLimit : Q
}.

(** A row of [df]: the merged row with its [MonthName] column. *)
Record Row : Type := mkRow {
  cols :> Merged;
  MonthName : string
}.

(** ** [load_data] (lines 28-52) *)

Definition join_row (l : ReadingRow) (r : StationRow) : Merged :=
  mkMerged (r_Station l) (r_Month l) (r_Day l) (r_Night l)
           (s_Name r) (s_Type r) (s_City r) (s_DayLimit r) (s_NightLimit r).

(** [pd.merge(left, right, on='Station')]: the default [how='inner'].  Every
    left row is paired with every right row of the same key, in the order of
    the left rows. *)
Definition merge (left : list ReadingRow) (right : list StationRow) : list Merged :=
  flat_map
    (fun l => map (join_row l)
                  (filter (fun r => String.eqb (s_Station r) (r_Station l)) right))
    left.

(** [calendar.month_name]: thirteen entries, the first one empty. *)
Definition month_names : list string :=
  [EmptyString; "January"; "February"; "March"; "April"; "May"; "June";
   "July"; "August"; "September"; "October"; "November"; "December"]%string.

(** [calendar.month_name[x]]: list indexing, negative indices count from the
    end, anything else is an [IndexError]. *)
Definition month_name (x : Z) : result string :=
  let n := Z.of_nat (List.length month_names) in
  let i := if x <? 0 then x + n else x in
  if (0 <=? i) && (i <? n) then
    match nth_error month_names (Z.to_nat i) with
    | Some s => Ok s
    | None => Raise IndexError
    end
  else Raise IndexError.

Fixpoint mapM {A B : Type} (f : A -> result B) (l : list A) : result (list B) :=
  match l with
  | [] => Ok []
  | a :: l' => b <- f a ;; bs <- mapM f l' ;; Ok (b :: bs)
  end.

Definition add_MonthName (m : Merged) : result Row :=
  name <- month_name (Month m) ;; Ok (mkRow m name).

(** [load_data].  The two arguments are the outcomes of the two [read_csv]
    calls.  Any exception inside the [try] ends in [st.stop()]. *)
Definition load_data
  (stations_csv : result (list StationRow))
  (station_month_csv : result (list ReadingRow)) : result (list Row) :=
  match
    stations_df <- stations_csv ;;
    monthly_data <- station_month_csv ;;
    mapM add_MonthName (merge monthly_data stations_df)
  with
  | Ok df => Ok df
  | Raise _ => Raise StopException
  end.

(** ** NumPy floats

    A [np.float64] result: a finite value, kept as an exact rational, or one
    of the special values. *)
Inductive float64 : Type :=
| Fin (q : Q)
| NaN
| PInf
| NInf.

Definition Qsign (q : Q) : Z := Z.sgn (Qnum q).

Definition fneg (x : float64) : float64 :=
  match x with
  | Fin q => Fin (- q)%Q
  | NaN => NaN
  | PInf => NInf
  | NInf => PInf
  end.

Definition fadd (x y : float64) : float64 :=
  match x, y with
  | NaN, _ | _, NaN => NaN
  | Fin a, Fin b => Fin (a + b)%Q
  | PInf, NInf | NInf, PInf => NaN
  | PInf, _ | _, PInf => PInf
  | NInf, _ | _, NInf => NInf
  end.

Definition fsub (x y : float64) : float64 := fadd x (fneg y).

Definition fmul (x y : float64) : float64 :=
  let inf_times (pos : bool) (s : Z) :=
    if s =? 0 then NaN
    else if Bool.eqb pos (0 <? s) then PInf else NInf in
  match x, y with
  | NaN, _ | _, NaN => NaN
  | Fin a, Fin b => Fin (a * b)%Q
  | PInf, Fin b => inf_times true (Qsign b)
  | NInf, Fin b => inf_times false (Qsign b)
  | Fin a, PInf => inf_times true (Qsign a)
  | Fin a, NInf => inf_times false (Qsign a)
  | PInf, PInf | NInf, NInf => PInf
  | PInf, NInf | NInf, PInf => NaN
  end.

(** [a / b] for a NumPy integer [a] and an integer [b]: true division, which
    does not raise on a zero divisor but gives [nan] or an infinity. *)
Definition true_divide (a b : Z) : float64 :=
  if b =? 0 then
    if a =? 0 then NaN else if 0 <? a then PInf else NInf
  else Fin (inject_Z a / inject_Z b)%Q.

Definition len {A : Type} (l : list A) : Z := Z.of_nat (List.length l).

Definition Qsum (l : list Q) : Q := fold_right Qplus 0%Q l.

(** [Series.mean()]: [nan] on an empty column.  The columns hold finite
    readings; a blank cell, which pandas reads as [nan] and the mean skips,
    is outside this model. *)
Definition mean (column : list Q) : float64 :=
  match column with
  | [] => NaN
  | _ :: _ => Fin (Qsum column / inject_Z (len column))%Q
  end.

(** [x > y] on readings. *)
Definition Qgtb (x y : Q) : bool := negb (Qle_bool x y).

Definition b2z (b : bool) : Z := if b then 1 else 0.

(** [Series.sum()] of a boolean column: the number of [True]. *)
Definition bsum (column : list bool) : Z :=
  fold_right (fun b acc => b2z b + acc) 0 column.

Definition isin (s : string) (values : list string) : bool :=
  existsb (String.eqb s) values.

(** ** Filters (lines 135-140, 232-243) *)

Definition city_data (df : list Row) (selected_city : string) : list Row :=
  filter (fun r : Row => String.eqb (City r) selected_city) df.

Definition month_data (city_data : list Row) (selected_month : Z)
  (selected_types : list string) : list Row :=
  filter (fun r : Row => (Month r =? selected_month) && isin (Type_ r) selected_types)
         city_data.

Definition period_data (city_data : list Row) (months : list Z)
  (selected_types : list string) : list Row :=
  filter (fun r : Row => mem (Month r) months && isin (Type_ r) selected_types)
         city_data.

Definition current_data := month_data.

(** ** Current-month metrics (lines 149-172) *)

(** What [st.metric] is given: the value and, when passed, the delta. *)
Record Metric : Type := mkMetric {
  metric_value : float64;
  metric_delta : option float64
}.

(** Lines 150-156 and 159-165, for the column [col] ([Day] or [Night]). *)
Definition average_metric (col : Row -> Q) (city_data month_data : list Row)
  (selected_month : Z) : Metric :=
  let avg := mean (map col month_data) in
  if 1 <? selected_month then
    let prev_month_avg :=
      mean (map col (filter (fun r : Row => Month r =? selected_month - 1) city_data)) in
    let change := fsub avg prev_month_avg in
    mkMetric avg (Some change)
  else mkMetric avg None.

Definition day_metric := average_metric (fun r : Row => Day r).
Definition night_metric := average_metric (fun r : Row => Night r).

(** Lines 168-171. *)
Definition violation_perc_divisor (month_data : list Row) : Z :=
  len month_data * 2.

Definition violation_perc (month_data : list Row) : float64 :=
  fmul
    (true_divide
       (bsum (map (fun r : Row => Qgtb (Day r) (DayLimit r)) month_data) +
        bsum (map (fun r : Row => Qgtb (Night r) (NightLimit r)) month_data))
       (violation_perc_divisor month_data))
    (Fin 100).

(** ** Period summaries (lines 246-290) *)

(** The "Violations" metric of a period column. *)
Definition period_violations (data : list Row) : Z :=
  bsum (map (fun r : Row => Qgtb (Day r) (DayLimit r) || Qgtb (Night r) (NightLimit r))
            data).

Record PeriodSummary : Type := mkPeriodSummary {
  avg_day_noise : float64;
  avg_night_noise : float64;
  violations : Z
}.

Definition summarize (data : list Row) : PeriodSummary :=
  mkPeriodSummary (mean (map (fun r : Row => Day r) data))
                  (mean (map (fun r : Row => Night r) data))
                  (period_violations data).

(** The before and after columns are guarded by [if not data.empty]. *)
Definition guarded_summary (data : list Row) : option PeriodSummary :=
  match data with
  | [] => None
  | _ :: _ => Some (summarize data)
  end.

(** The column of the selected month has no such guard. *)
Definition current_summary (current_data : list Row) : PeriodSummary :=
  summarize current_data.

(** ** Violation analysis (lines 449-476, 546-550) *)

Record VRow : Type := mkVRow {
  vrow :> Row;
  Day_Violation : bool;
  Night_Violation : bool;
  Total_Violations : Z
}.

(** Lines 450-452 on one row. *)
Definition annotate (r : Row) : VRow :=
  let day_violation := Qgtb (Day r) (DayLimit r) in
  let night_violation := Qgtb (Night r) (NightLimit r) in
  mkVRow r day_violation night_violation
         (b2z day_violation + b2z night_violation).

Definition violation_data (month_data : list Row) : list VRow :=
  map annotate month_data.

Definition day_violations (violation_data : list VRow) : Z :=
  bsum (map Day_Violation violation_data).

Definition night_violations (violation_data : list VRow) : Z :=
  bsum (map Night_Violation violation_data).

(** Line 466. *)
Definition violation_percentage (violation_data : list VRow) : float64 :=
  fmul
    (true_divide (day_violations violation_data + night_violations violation_data)
                 (len violation_data * 2))
    (Fin 100).

(** [groupby('Type')]: the group keys are the distinct values in sorted
    order. *)
Fixpoint insert_key (k : string) (keys : list string) : list string :=
  match keys with
  | [] => [k]
  | k' :: rest =>
      match String.compare k k' with
      | Lt => k :: k' :: rest
      | Eq => k' :: rest
      | Gt => k' :: insert_key k rest
      end
  end.

Definition group_keys (values : list string) : list string :=
  fold_right insert_key [] values.

Record ZoneViolations : Type := mkZoneViolations {
  zv_Type : string;
  zv_Day_Violation : Z;
  zv_Night_Violation : Z;
  zv_Total_Violations : Z
}.

Definition group_of (ty : string) (violation_data : list VRow) : list VRow :=
  filter (fun v : VRow => String.eqb (Type_ v) ty) violation_data.

Definition Zsum (column : list Z) : Z := fold_right Z.add 0 column.

(** Lines 546-550. *)
Definition zone_violations (violation_data : list VRow) : list ZoneViolations :=
  map (fun ty =>
         let g := group_of ty violation_data in
         mkZoneViolations ty
           (bsum (map Day_Violation g))
           (bsum (map Night_Violation g))
           (Zsum (map Total_Violations g)))
      (group_keys (map (fun v : VRow => Type_ v) violation_data)).

(** ** The statements of the specification, for comparison *)

(** The violation rate in the specification's words: absent for no records,
    otherwise [(d + n) / (2N) * 100]. *)
Definition spec_violation_rate (records : list Row) : option Q :=
  match records with
  | [] => None
  | _ :: _ =>
      Some ((inject_Z (bsum (map (fun r : Row => Qgtb (Day r) (DayLimit r)) records) +
                       bsum (map (fun r : Row => Qgtb (Night r) (NightLimit r)) records))
             / (2 * inject_Z (len records))) * 100)%Q
  end.

(** The month-over-month delta in the specification's words: both means over
    the same city and zone-type filter, absent when there is no prior month or
    the prior month has no data for the filter. *)
Definition spec_delta (col : Row -> Q) (df : list Row) (city : string)
  (types : list string) (M : Z) : option float64 :=
  let this := month_data (city_data df city) M types in
  let prior := month_data (city_data df city) (M - 1) types in
  if 1 <? M then
    match prior with
    | [] => None
    | _ :: _ => Some (fsub (mean (map col this)) (mean (map col prior)))
    end
  else None.

(** Equality of float results up to the representation of the rational. *)
Definition float_eq (x y : float64) : Prop :=
  match x, y with
  | Fin a, Fin b => (a == b)%Q
  | NaN, NaN | PInf, PInf | NInf, NInf => True
  | _, _ => False
  end.

Definition violates_any (r : Row) : bool :=
  Qgtb (Day r) (DayLimit r) || Qgtb (Night r) (NightLimit r).

Definition violates_both (r : Row) : bool :=
  Qgtb (Day r) (DayLimit r) && Qgtb (Night r) (NightLimit r).

(** ** Further parts of the script *)

(** Line 75: the month slider. *)
Definition selected_month_slider (pick : option nat) : result Z :=
  select_slider (range 1 13) 6 pick.

(** Line 83: [sorted(df['Type'].unique())], the options and the default of
    the zone-type multiselect. *)
Definition zone_types (df : list Row) : list string :=
  group_keys (map (fun r : Row => Type_ r) df).

(** The reading's columns of a merged row, and whether a reading's station
    is in the station table. *)
Definition reading_part (m : Merged) : ReadingRow :=
  mkReadingRow (Station m) (Month m) (Day m) (Night m).

Definition known_station (stations : list StationRow) (l : ReadingRow) : bool :=
  existsb (fun r => String.eqb (s_Station r) (r_Station l)) stations.

(** [groupby('Month')]: the distinct months in increasing order. *)
Fixpoint insert_month (m : Z) (keys : list Z) : list Z :=
  match keys with
  | [] => [m]
  | k :: rest =>
      match m ?= k with
      | Lt => m :: k :: rest
      | Eq => k :: rest
      | Gt => k :: insert_month m rest
      end
  end.

Definition month_keys (months : list Z) : list Z :=
  fold_right insert_month [] months.

Record MonthlyMean : Type := mkMonthlyMean {
  mm_Month : Z;
  mm_Day : float64;
  mm_Night : float64
}.

Definition month_group (m : Z) (data : list Row) : list Row :=
  filter (fun r : Row => Month r =? m) data.

(** [data.groupby('Month')[['Day', 'Night']].mean().reset_index()]. *)
Definition monthly_means (data : list Row) : list MonthlyMean :=
  map (fun m =>
         let g := month_group m data in
         mkMonthlyMean m (mean (map (fun r : Row => Day r) g))
                         (mean (map (fun r : Row => Night r) g)))
      (month_keys (map (fun r : Row => Month r) data)).

(** Line 190. *)
Definition trend_data (city_data : list Row) (selected_types : list string)
  : list MonthlyMean :=
  monthly_means (filter (fun r : Row => isin (Type_ r) selected_types) city_data).

(** Lines 232-243 and 296-300, for the periods [P]. *)
Definition before_data (city_data : list Row) (P : Periods)
  (selected_types : list string) : list Row :=
  period_data city_data (before_months P) selected_types.

Definition after_data (city_data : list Row) (P : Periods)
  (selected_types : list string) : list Row :=
  period_data city_data (after_months P) selected_types.

Definition comparison_data (city_data : list Row) (P : Periods)
  (selected_types : list string) : list Row :=
  period_data city_data (comparison_months P) selected_types.

Definition comparison_avg (city_data : list Row) (P : Periods)
  (selected_types : list string) : list MonthlyMean :=
  monthly_means (comparison_data city_data P selected_types).

(** Lines 305, 322 and 340: the three segments of the comparison chart. *)
Definition chart_before (city_data : list Row) (P : Periods)
  (selected_types : list string) : list MonthlyMean :=
  filter (fun g => mem (mm_Month g) (before_months P))
         (comparison_avg city_data P selected_types).

Definition chart_selected (city_data : list Row) (selected_month : Z)
  (P : Periods) (selected_types : list string) : list MonthlyMean :=
  filter (fun g => mm_Month g =? selected_month)
         (comparison_avg city_data P selected_types).

Definition chart_after (city_data : list Row) (P : Periods)
  (selected_types : list string) : list MonthlyMean :=
  filter (fun g => mem (mm_Month g) (after_months P))
         (comparison_avg city_data P selected_types).

Definition string_lt (a b : string) : Prop := String.compare a b = Lt.

(** ** Sample tables *)

Definition sample_stations : list StationRow :=
  [mkStationRow "S1" "Alpha" "Residential" "Delhi" 55 45;
   mkStationRow "S2" "Beta" "Commercial" "Delhi" 65 55]%string.

Definition sample_readings : list ReadingRow :=
  [mkReadingRow "S1" 1 50 40; mkReadingRow "S3" 1 70 60;
   mkReadingRow "S1" 2 60 50]%string.

Definition sample_row (station type city : string) (month : Z) (day night : Q)
  : Row :=
  mkRow (mkMerged station month day night station type city 55 45)
        match month_name month with
        | Ok name => name
        | Raise _ => EmptyString
        end.

(** Delhi: two zone types in January, one of them in February. *)
Definition delta_df : list Row :=
  [sample_row "S1" "Residential" "Delhi" 1 40 40;
   sample_row "S2" "Commercial" "Delhi" 1 60 40;
   sample_row "S1" "Residential" "Delhi" 2 50 40]%string.

(** Two records, each above the limit at night only. *)
Definition night_only : list Row :=
  [sample_row "S1" "Residential" "Delhi" 6 50 50;
   sample_row "S2" "Residential" "Delhi" 6 50 50]%string.

(** One record above both limits, one compliant record. *)
Definition both_and_none : list Row :=
  [sample_row "S1" "Residential" "Delhi" 6 60 50;
   sample_row "S2" "Residential" "Delhi" 6 50 40]%string.

(** A reading exactly at the day limit and one a hundredth above it. *)
Definition at_limit : Row :=
  sample_row "S1" "Residential" "Delhi" 6 55 45.

Definition just_above_limit : Row :=
  sample_row "S1" "Residential" "Delhi" 6 (5501 # 100) 45.

(** * Lemmas on [range] and [select_slider] *)

Lemma in_range (a b x : Z) : In x (range a b) <-> a <= x < b.
Proof.
  unfold range. rewrite in_map_iff. split.
  - intros [i [Hx Hi]]. apply in_seq in Hi. lia.
  - intros H. exists (Z.to_nat (x - a)). split; [lia|].
    apply in_seq. lia.
Qed.

Lemma range_empty (a b : Z) : b <= a -> range a b = [].
Proof.
  intros H. unfold range. replace (Z.to_nat (b - a)) with 0%nat by lia.
  reflexivity.
Qed.

Lemma range_NoDup (a b : Z) : NoDup (range a b).
Proof.
  unfold range. apply Finite.Injective_map_NoDup.
  - intros i j H. lia.
  - apply seq_NoDup.
Qed.

Lemma mem_In (x : Z) (l : list Z) : mem x l = true <-> In x l.
Proof.
  unfold mem. rewrite existsb_exists. split.
  - intros [y [Hy He]]. apply Z.eqb_eq in He. now subst.
  - intros H. exists x. split; [assumption | apply Z.eqb_refl].
Qed.

Lemma select_slider_empty (value : Z) (pick : option nat) :
  select_slider [] value pick = Raise StreamlitAPIException.
Proof. reflexivity. Qed.

Lemma select_slider_Ok_In (options : list Z) (value : Z) (pick : option nat) (v : Z) :
  select_slider options value pick = Ok v -> In v options.
Proof.
  unfold select_slider. destruct options as [|o os]; [discriminate|].
  destruct (mem value (o :: os)) eqn:Hm; [|discriminate].
  apply mem_In in Hm.
  destruct pick as [i|].
  - destruct (nth_error (o :: os) i) eqn:Hn; intros H; inversion H; subst.
    + eapply nth_error_In; eassumption.
    + assumption.
  - intros H; inversion H; subst; assumption.
Qed.

Lemma select_slider_total (options : list Z) (value : Z) (pick : option nat) :
  In value options -> exists v, select_slider options value pick = Ok v.
Proof.
  intros Hin. unfold select_slider.
  destruct options as [|o os]; [destruct Hin|].
  apply mem_In in Hin. rewrite Hin.
  destruct pick as [i|]; [destruct (nth_error (o :: os) i)|]; eauto.
Qed.

Lemma select_slider_exn (options : list Z) (value : Z) (pick : option nat) (e : exn) :
  select_slider options value pick = Raise e ->
  e = StreamlitAPIException \/ e = ValueError.
Proof.
  unfold select_slider. destruct options as [|o os].
  - intros H; inversion H; auto.
  - destruct (mem value (o :: os)).
    + destruct pick as [i|]; [destruct (nth_error (o :: os) i)|]; discriminate.
    + intros H; inversion H; auto.
Qed.

(** * The period sliders and the comparison periods *)

(** A default outside the options is refused too: with June selected and the
    after period started in November, the default end (September) is not
    among the options. *)
Example resolve_periods_late_after_start :
  resolve_periods 6 (mkPicks None None (Some 4%nat) None) = Raise ValueError.
Proof. reflexivity. Qed.

(** C1: with January selected the first slider of the before period has no
    option to offer, and with December selected the first slider of the after
    period has none; Streamlit refuses an empty option list, so the script
    stops with an exception in both cases, whatever the user's slider
    positions, instead of going on with an empty range. *)
Theorem resolve_periods_january_december_raise (u : Picks) :
  resolve_periods 1 u = Raise StreamlitAPIException /\
  resolve_periods 12 u = Raise StreamlitAPIException.
Proof.
  split.
  - reflexivity.
  - unfold resolve_periods.
    destruct (select_slider_total (range 1 12) (Z.max 1 (12 - 3))
                (pick_before_start u)) as [bs Hbs].
    { apply in_range. lia. }
    rewrite Hbs. cbn [bind].
    apply select_slider_Ok_In, in_range in Hbs.
    destruct (select_slider_total (range bs 12) (12 - 1) (pick_before_end u))
      as [be Hbe].
    { apply in_range. lia. }
    rewrite Hbe. reflexivity.
Qed.

(** The empty ranges themselves are no obstacle to lines 131-133: it is the
    sliders before them that stop the script. *)
Lemma before_months_empty (selected_month before_start before_end a b : Z) :
  before_end < before_start ->
  before_months (comparison_periods selected_month before_start before_end a b) = [].
Proof. intros H. cbn. apply range_empty. lia. Qed.

Lemma resolve_periods_Ok_inv (selected_month : Z) (u : Picks) (P : Periods) :
  resolve_periods selected_month u = Ok P ->
  exists before_start before_end after_start after_end,
    In before_start (range 1 selected_month) /\
    In before_end (range before_start selected_month) /\
    In after_start (range (selected_month + 1) 13) /\
    In after_end (range after_start 13) /\
    P = comparison_periods selected_month before_start before_end
                           after_start after_end.
Proof.
  unfold resolve_periods, periods_of_bounds.
  destruct (select_slider _ _ (pick_before_start u)) as [bs|] eqn:H1; [|discriminate].
  cbn [bind].
  destruct (select_slider _ _ (pick_before_end u)) as [be|] eqn:H2; [|discriminate].
  cbn [bind].
  destruct (select_slider _ _ (pick_after_start u)) as [a_s|] eqn:H3; [|discriminate].
  cbn [bind].
  destruct (select_slider _ _ (pick_after_end u)) as [ae|] eqn:H4; [|discriminate].
  cbn [bind]. intros H; inversion H; subst.
  exists bs, be, a_s, ae.
  repeat split; eauto using select_slider_Ok_In.
Qed.

Lemma resolve_periods_exn (selected_month : Z) (u : Picks) (e : exn) :
  resolve_periods selected_month u = Raise e ->
  e = StreamlitAPIException \/ e = ValueError.
Proof.
  unfold resolve_periods, periods_of_bounds.
  destruct (select_slider _ _ (pick_before_start u)) as [bs|] eqn:H1;
    [|intros H; inversion H; subst; eauto using select_slider_exn].
  cbn [bind].
  destruct (select_slider _ _ (pick_before_end u)) as [be|] eqn:H2;
    [|intros H; inversion H; subst; eauto using select_slider_exn].
  cbn [bind].
  destruct (select_slider _ _ (pick_after_start u)) as [a_s|] eqn:H3;
    [|intros H; inversion H; subst; eauto using select_slider_exn].
  cbn [bind].
  destruct (select_slider _ _ (pick_after_end u)) as [ae|] eqn:H4;
    [|intros H; inversion H; subst; eauto using select_slider_exn].
  cbn [bind]. discriminate.
Qed.

(** C2, as stated, fails: lines 131-133 take a before period that starts
    after it ends (May to March, June selected) and an after period that ends
    beyond December, and return month lists without raising anything. *)
Lemma invalid_bounds_not_rejected :
  periods_of_bounds 6 5 3 7 9 = Ok (mkPeriods [] [7; 8; 9] [6; 7; 8; 9]) /\
  periods_of_bounds 6 3 5 7 13 <> Raise InvalidPeriodBounds /\
  periods_of_bounds 6 3 6 7 9 <> Raise InvalidPeriodBounds.
Proof. repeat split; try reflexivity; discriminate. Qed.

(** C2, amended: the script has no bounds check and never raises
    [InvalidPeriodBounds].  The bounds reach lines 131-133 only through the
    sliders, whose option lists are the valid domains: whenever the sliders
    return, the bounds satisfy
    [1 <= before_start <= before_end < selected_month < after_start <=
    after_end <= 12]; and a slider that cannot return raises Streamlit's own
    exception. *)
Theorem resolve_periods_bounds_from_sliders (selected_month : Z) (u : Picks) :
  resolve_periods selected_month u <> Raise InvalidPeriodBounds /\
  forall P, resolve_periods selected_month u = Ok P ->
    exists before_start before_end after_start after_end,
      1 <= before_start /\ before_start <= before_end /\
      before_end < selected_month /\ selected_month < after_start /\
      after_start <= after_end /\ after_end <= 12 /\
      P = comparison_periods selected_month before_start before_end
                             after_start after_end.
Proof.
  split.
  - intros H. apply resolve_periods_exn in H. destruct H; discriminate.
  - intros P H. apply resolve_periods_Ok_inv in H.
    destruct H as (bs & be & a_s & ae & H1 & H2 & H3 & H4 & HP).
    apply in_range in H1, H2, H3, H4.
    exists bs, be, a_s, ae. repeat split; try lia. exact HP.
Qed.

Lemma resolve_periods_bounds_from_sliders_witness :
  resolve_periods 6 (mkPicks (Some 1%nat) (Some 2%nat) None (Some 1%nat)) =
    Ok (comparison_periods 6 2 4 7 8) /\
  exists before_start before_end after_start after_end,
    1 <= before_start /\ before_start <= before_end /\
    before_end < 6 /\ 6 < after_start /\
    after_start <= after_end /\ after_end <= 12 /\
    comparison_periods 6 2 4 7 8 =
    comparison_periods 6 before_start before_end after_start after_end.
Proof.
  split.
  - reflexivity.
  - apply (proj2 (resolve_periods_bounds_from_sliders 6
             (mkPicks (Some 1%nat) (Some 2%nat) None (Some 1%nat)))).
    reflexivity.
Defined.

(** C3: for valid bounds every month of the before period is below the
    selected month, every month of the after period is above it, and the
    comparison months, which are the before months, the selected month and
    the after months, hold no month twice. *)
Theorem comparison_periods_ordered
  (selected_month before_start before_end after_start after_end : Z) :
  valid_bounds selected_month before_start before_end after_start after_end ->
  let P := comparison_periods selected_month before_start before_end
                              after_start after_end in
  (forall m, In m (before_months P) -> m < selected_month) /\
  (forall m, In m (after_months P) -> selected_month < m) /\
  (forall m, In m (comparison_months P) <->
             In m (before_months P) \/ m = selected_month \/ In m (after_months P)) /\
  NoDup (comparison_months P).
Proof.
  intros (Hs & H1 & H2 & H3 & H4 & H5 & H6). cbn.
  repeat split.
  - intros m Hm. apply in_range in Hm. lia.
  - intros m Hm. apply in_range in Hm. lia.
  - intros Hm. apply in_app_or in Hm. destruct Hm as [Hm|[Hm|Hm]]; auto.
  - intros [Hm|[Hm|Hm]]; apply in_or_app; [left|right; left|right; right]; auto.
  - apply NoDup_app.
    + apply range_NoDup.
    + constructor; [|apply range_NoDup].
      intros Hm. apply in_range in Hm. lia.
    + intros m Hm [Hm'|Hm']; apply in_range in Hm.
      * lia.
      * apply in_range in Hm'. lia.
Qed.

Lemma comparison_periods_ordered_witness :
  valid_bounds 6 3 5 7 9 /\
  comparison_months (comparison_periods 6 3 5 7 9) = [3; 4; 5; 6; 7; 8; 9] /\
  NoDup (comparison_months (comparison_periods 6 3 5 7 9)).
Proof.
  assert (Hv : valid_bounds 6 3 5 7 9) by (unfold valid_bounds; lia).
  split; [exact Hv|]. split; [reflexivity|].
  exact (proj2 (proj2 (proj2 (comparison_periods_ordered 6 3 5 7 9 Hv)))).
Defined.

(** * The loader *)

Lemma month_name_valid (x : Z) :
  1 <= x <= 12 -> exists s, month_name x = Ok s.
Proof.
  intros H.
  assert (Hx : x = 1 \/ x = 2 \/ x = 3 \/ x = 4 \/ x = 5 \/ x = 6 \/ x = 7 \/
               x = 8 \/ x = 9 \/ x = 10 \/ x = 11 \/ x = 12) by lia.
  repeat (destruct Hx as [Hx|Hx]; [subst; eexists; reflexivity|]).
  subst; eexists; reflexivity.
Qed.

Example month_name_13 : month_name 13 = Raise IndexError.
Proof. reflexivity. Qed.

Lemma mapM_add_MonthName_cols (l : list Merged) (df : list Row) :
  mapM add_MonthName l = Ok df -> map cols df = l.
Proof.
  revert df. induction l as [|m l IH]; intros df; cbn.
  - intros H; inversion H; reflexivity.
  - unfold add_MonthName at 1.
    destruct (month_name (Month m)) as [name|]; [cbn|discriminate].
    destruct (mapM add_MonthName l) as [bs|]; [cbn|discriminate].
    intros H; inversion H; subst. cbn. f_equal. now apply IH.
Qed.

Lemma mapM_add_MonthName_total (l : list Merged) :
  (forall m, In m l -> 1 <= Month m <= 12) ->
  exists df, mapM add_MonthName l = Ok df.
Proof.
  induction l as [|m l IH]; intros H; cbn.
  - eauto.
  - destruct (month_name_valid (Month m)) as [name Hn]; [apply H; now left|].
    destruct IH as [bs Hbs]; [intros; apply H; now right|].
    unfold add_MonthName at 1. rewrite Hn. cbn. rewrite Hbs. cbn. eauto.
Qed.

Lemma in_merge (left : list ReadingRow) (right : list StationRow) (m : Merged) :
  In m (merge left right) <->
  exists l r, In l left /\ In r right /\ r_Station l = s_Station r /\
              m = join_row l r.
Proof.
  unfold merge. rewrite in_flat_map. split.
  - intros (l & Hl & Hm). apply in_map_iff in Hm. destruct Hm as (r & Hm & Hr).
    apply filter_In in Hr. destruct Hr as [Hr He]. apply String.eqb_eq in He.
    exists l, r. auto.
  - intros (l & r & Hl & Hr & He & Hm). exists l. split; [assumption|].
    apply in_map_iff. exists r. split; [now symmetry|].
    apply filter_In. split; [assumption|]. apply String.eqb_eq. now symmetry.
Qed.

(** C6: on readable tables whose months are calendar months, [load_data]
    returns the inner join on [Station]: its rows are exactly the pairings of
    a reading with a station of the same [Station] value, a [Station] value
    occurs in the output iff it occurs in both tables (so unmatched readings
    and unmatched stations leave no row), and the number of rows is the
    number of matching pairs. *)
Theorem load_data_inner_join
  (stations_df : list StationRow) (monthly_data : list ReadingRow) :
  (forall l, In l monthly_data -> 1 <= r_Month l <= 12) ->
  exists df,
    load_data (Ok stations_df) (Ok monthly_data) = Ok df /\
    map cols df = merge monthly_data stations_df /\
    (forall m, In m (map cols df) <->
       exists l r, In l monthly_data /\ In r stations_df /\
                   r_Station l = s_Station r /\ m = join_row l r) /\
    (forall s, In s (map (fun row : Row => Station row) df) <->
       In s (map r_Station monthly_data) /\ In s (map s_Station stations_df)) /\
    List.length df =
      list_sum
        (map (fun l =>
                List.length
                  (filter (fun r => String.eqb (s_Station r) (r_Station l))
                          stations_df))
             monthly_data).
Proof.
  intros Hmonths.
  destruct (mapM_add_MonthName_total (merge monthly_data stations_df)) as [df Hdf].
  { intros m Hm. apply in_merge in Hm. destruct Hm as (l & r & Hl & _ & _ & ->).
    cbn. now apply Hmonths. }
  exists df.
  pose proof (mapM_add_MonthName_cols _ _ Hdf) as Hcols.
  split; [unfold load_data; cbn [bind]; now rewrite Hdf|].
  split; [exact Hcols|].
  split; [intros m; rewrite Hcols; apply in_merge|].
  split.
  - intros s.
    replace (map (fun row : Row => Station row) df) with (map Station (map cols df))
      by (rewrite map_map; reflexivity).
    rewrite Hcols, !in_map_iff. split.
    + intros (m & Hs & Hm). apply in_merge in Hm.
      destruct Hm as (l & r & Hl & Hr & He & ->). cbn in Hs. subst s.
      split; [exists l | exists r]; auto.
    + intros [(l & Hs & Hl) (r & Hs' & Hr)].
      exists (join_row l r). split; [exact Hs|].
      apply in_merge. exists l, r. repeat split; auto. congruence.
  - rewrite <- (length_map cols df), Hcols. unfold merge.
    rewrite length_flat_map. f_equal. apply map_ext. intros l.
    apply length_map.
Qed.

Lemma load_data_inner_join_witness :
  (forall l, In l sample_readings -> 1 <= r_Month l <= 12) /\
  exists df,
    load_data (Ok sample_stations) (Ok sample_readings) = Ok df /\
    List.length df = 2%nat.
Proof.
  assert (H : forall l, In l sample_readings -> 1 <= r_Month l <= 12).
  { intros l [<-|[<-|[<-|[]]]]; cbn; lia. }
  split; [exact H|].
  destruct (load_data_inner_join sample_stations sample_readings H)
    as (df & Hload & _ & _ & _ & Hlen).
  exists df. split; [exact Hload | exact Hlen].
Defined.

(** A table that cannot be read, or a month outside the calendar, ends the
    script in [st.stop()]. *)
Lemma load_data_unreadable (e : exn) (monthly_csv : result (list ReadingRow)) :
  load_data (Raise e) monthly_csv = Raise StopException.
Proof. reflexivity. Qed.

(** * Violations per record *)

Lemma Qgtb_lt (x y : Q) : Qgtb x y = true <-> (y < x)%Q.
Proof.
  unfold Qgtb. rewrite negb_true_iff, <- not_true_iff_false, Qle_bool_iff.
  split; [apply Qnot_le_lt | apply Qlt_not_le].
Qed.

Lemma b2z_range (b : bool) : 0 <= b2z b <= 1.
Proof. destruct b; cbn; lia. Qed.

Lemma annotate_total (r : Row) :
  Total_Violations (annotate r) =
  b2z (Day_Violation (annotate r)) + b2z (Night_Violation (annotate r)).
Proof. reflexivity. Qed.

(** C7: in the annotated frame every record has [Day Violation] exactly when
    its day level is strictly above its day limit and [Night Violation]
    exactly when its night level is strictly above its night limit;
    [Total Violations] is the sum of the two booleans and is 0, 1 or 2.  A
    reading at the limit is compliant, one a hundredth above it is not. *)
Theorem violation_data_strict (month_data : list Row) :
  Forall
    (fun v : VRow =>
       (Day_Violation v = true <-> (DayLimit v < Day v)%Q) /\
       (Night_Violation v = true <-> (NightLimit v < Night v)%Q) /\
       Total_Violations v = b2z (Day_Violation v) + b2z (Night_Violation v) /\
       (Total_Violations v = 0 \/ Total_Violations v = 1 \/ Total_Violations v = 2))
    (violation_data month_data) /\
  map vrow (violation_data month_data) = month_data /\
  Day_Violation (annotate at_limit) = false /\
  Day_Violation (annotate just_above_limit) = true.
Proof.
  split; [|split; [|split; reflexivity]].
  - unfold violation_data. apply Forall_map. apply Forall_forall. intros r _.
    split; [apply (Qgtb_lt (Day r) (DayLimit r))|].
    split; [apply (Qgtb_lt (Night r) (NightLimit r))|].
    split; [reflexivity|].
    rewrite annotate_total.
    destruct (Day_Violation (annotate r)), (Night_Violation (annotate r));
      cbn; lia.
  - unfold violation_data. rewrite map_map. cbn. apply map_id.
Qed.

(** * Violation counts and rates *)

Lemma bsum_nonneg (column : list bool) : 0 <= bsum column.
Proof.
  induction column as [|b l IH]; cbn [bsum fold_right]; [lia|].
  fold (bsum l). pose proof (b2z_range b). lia.
Qed.

Lemma bsum_filter {A : Type} (f : A -> bool) (l : list A) :
  bsum (map f l) = len (filter f l).
Proof.
  unfold len. induction l as [|a l IH]; cbn; [reflexivity|].
  fold (bsum (map f l)). rewrite IH.
  destruct (f a); cbn [b2z List.length]; lia.
Qed.

Lemma day_violations_month_data (month_data : list Row) :
  day_violations (violation_data month_data) =
  bsum (map (fun r : Row => Qgtb (Day r) (DayLimit r)) month_data).
Proof. unfold day_violations, violation_data. now rewrite map_map. Qed.

Lemma night_violations_month_data (month_data : list Row) :
  night_violations (violation_data month_data) =
  bsum (map (fun r : Row => Qgtb (Night r) (NightLimit r)) month_data).
Proof. unfold night_violations, violation_data. now rewrite map_map. Qed.

Lemma len_violation_data (month_data : list Row) :
  len (violation_data month_data) = len month_data.
Proof. unfold len, violation_data. now rewrite length_map. Qed.

(** The two places that compute the rate agree. *)
Lemma violation_percentage_perc (month_data : list Row) :
  violation_percentage (violation_data month_data) = violation_perc month_data.
Proof.
  unfold violation_percentage, violation_perc, violation_perc_divisor.
  now rewrite day_violations_month_data, night_violations_month_data,
    len_violation_data.
Qed.

Lemma true_divide_nonzero (a b : Z) :
  b <> 0 -> true_divide a b = Fin (inject_Z a / inject_Z b).
Proof.
  intros H. unfold true_divide. apply Z.eqb_neq in H. now rewrite H.
Qed.

(** C4, as stated, fails on an empty selection: the specification reports
    the rate as absent, the script divides by [len(month_data) * 2 = 0] and
    formats the resulting [nan]. *)
Lemma violation_perc_empty_divides_by_zero :
  spec_violation_rate [] = None /\
  violation_perc_divisor [] = 0 /\
  violation_perc [] = NaN /\
  ~ (forall month_data, violation_perc_divisor month_data <> 0).
Proof.
  repeat split. intros H. apply (H []). reflexivity.
Qed.

(** C4, amended: for a non-empty record set both computations of the rate
    give [(day violations + night violations) / (2N) * 100]; for an empty
    one the division is carried out with a zero divisor and the rate is
    [nan]. *)
Theorem violation_perc_formula (month_data : list Row) :
  (month_data <> [] ->
   exists q,
     violation_perc month_data = Fin q /\
     violation_percentage (violation_data month_data) = Fin q /\
     (q == inject_Z (day_violations (violation_data month_data) +
                     night_violations (violation_data month_data))
           / (2 * inject_Z (len month_data)) * 100)%Q /\
     exists q', spec_violation_rate month_data = Some q' /\ (q == q')%Q) /\
  violation_perc [] = NaN /\
  violation_percentage (violation_data []) = NaN.
Proof.
  split; [|split; reflexivity].
  intros Hne.
  assert (Hlen : inject_Z (len month_data) == 0 -> False).
  { intros H. apply (inject_Z_injective (len month_data) 0) in H.
    destruct month_data; [now apply Hne | discriminate H]. }
  assert (Hdiv : len month_data * 2 <> 0).
  { intros H. apply Hlen. replace (len month_data) with 0 by lia. reflexivity. }
  eexists. split; [|split; [|split]].
  - unfold violation_perc, violation_perc_divisor.
    rewrite true_divide_nonzero by exact Hdiv. cbn [fmul]. reflexivity.
  - rewrite violation_percentage_perc.
    unfold violation_perc, violation_perc_divisor.
    rewrite true_divide_nonzero by exact Hdiv. cbn [fmul]. reflexivity.
  - rewrite day_violations_month_data, night_violations_month_data.
    rewrite inject_Z_mult. field. exact Hlen.
  - destruct month_data as [|r rs]; [now contradiction Hne|].
    eexists. split; [reflexivity|].
    rewrite inject_Z_mult. field. exact Hlen.
Qed.

Lemma violation_perc_formula_witness :
  both_and_none <> [] /\
  exists q, violation_perc both_and_none = Fin q /\ (q == 50)%Q.
Proof.
  assert (Hne : both_and_none <> []) by discriminate.
  split; [exact Hne|].
  destruct (proj1 (violation_perc_formula both_and_none) Hne)
    as (q & Hq & _ & Heq & _).
  exists q. split; [exact Hq|].
  rewrite Heq. reflexivity.
Defined.

(** * Month-over-month change *)

(** With January selected no change is passed to the metric. *)
Lemma average_metric_january (col : Row -> Q) (city_data month_data : list Row) :
  metric_delta (average_metric col city_data month_data 1) = None.
Proof. reflexivity. Qed.

(** From February on the change is the mean over the month's filtered rows
    minus the mean over all rows of the city in the month before. *)
Lemma average_metric_change (col : Row -> Q) (cd md : list Row) (M : Z) :
  1 < M ->
  metric_delta (average_metric col cd md M) =
  Some (fsub (mean (map col md))
             (mean (map col (filter (fun r : Row => Month r =? M - 1) cd)))).
Proof.
  intros H. unfold average_metric. apply Z.ltb_lt in H. now rewrite H.
Qed.

(** When every zone type of the city is selected, as it is by default, the
    prior month is seen through the same filter as the selected month. *)
Lemma prior_month_all_types (cd : list Row) (types : list string) (M : Z) :
  (forall r, In r cd -> isin (Type_ r) types = true) ->
  filter (fun r : Row => Month r =? M - 1) cd = month_data cd (M - 1) types.
Proof.
  intros H. unfold month_data. apply filter_ext_in. intros r Hr.
  rewrite (H r Hr). now rewrite andb_true_r.
Qed.

(** C5: with only the residential zone selected, February's change in the
    day level is computed against the January mean over every zone type
    (40 and 60, mean 50) and comes out as 0, where the change over the same
    city and zone-type filter is 50 - 40 = 10. *)
Theorem day_change_prior_month_unfiltered :
  let cd := city_data delta_df "Delhi" in
  let md := month_data cd 2 ["Residential"%string] in
  (exists d, metric_delta (day_metric cd md 2) = Some d /\ float_eq d (Fin 0)) /\
  (exists d', spec_delta (fun r : Row => Day r) delta_df "Delhi"
                         ["Residential"%string] 2 = Some d' /\
              float_eq d' (Fin 10)).
Proof.
  split; eexists; (split; [vm_compute; reflexivity | reflexivity]).
Qed.

(** * Records in violation against violation events *)

Lemma period_violations_filter (data : list Row) :
  period_violations data = len (filter violates_any data).
Proof. unfold period_violations. apply (bsum_filter violates_any). Qed.

Lemma violation_events (data : list Row) :
  period_violations data + len (filter violates_both data) =
  day_violations (violation_data data) + night_violations (violation_data data).
Proof.
  rewrite day_violations_month_data, night_violations_month_data.
  rewrite period_violations_filter, <- (bsum_filter violates_both).
  rewrite <- (bsum_filter violates_any).
  induction data as [|r data IH]; [reflexivity|].
  cbn [map bsum fold_right].
  fold (bsum (map violates_any data)). fold (bsum (map violates_both data)).
  fold (bsum (map (fun r : Row => Qgtb (Day r) (DayLimit r)) data)).
  fold (bsum (map (fun r : Row => Qgtb (Night r) (NightLimit r)) data)).
  unfold violates_any at 1, violates_both at 1.
  destruct (Qgtb (Day r) (DayLimit r)), (Qgtb (Night r) (NightLimit r));
    cbn [orb andb b2z]; lia.
Qed.

(** C8: the "Violations" metric of a period column is the number of records
    above the day limit or the night limit, each record counted once: it
    falls short of the day count plus the night count by the records that
    break both limits.  The day and night counts are computed apart from it,
    over the same rows for the selected month.  Two records above the limit
    at night only give 2 records, 0 day violations and 2 night violations; a
    record above both limits is one record and two events. *)
Theorem period_violations_counts_records :
  (forall data, period_violations data = len (filter violates_any data)) /\
  (forall data,
     period_violations data + len (filter violates_both data) =
     day_violations (violation_data data) + night_violations (violation_data data)) /\
  (forall cd selected_month selected_types,
     current_data cd selected_month selected_types =
     month_data cd selected_month selected_types) /\
  (violations (current_summary night_only) = 2 /\
   day_violations (violation_data night_only) = 0 /\
   night_violations (violation_data night_only) = 2) /\
  (violations (current_summary both_and_none) = 1 /\
   day_violations (violation_data both_and_none) = 1 /\
   night_violations (violation_data both_and_none) = 1).
Proof.
  split; [exact period_violations_filter|].
  split; [exact violation_events|].
  split; [reflexivity|].
  split; repeat split; reflexivity.
Qed.

(** * A list fact *)

Lemma filter_none {A : Type} (f : A -> bool) (l : list A) :
  Forall (fun a => f a = false) l -> filter f l = [].
Proof.
  induction 1 as [|a l Ha _ IH]; cbn; [reflexivity|]. now rewrite Ha.
Qed.

(** * The zone-wise roll-up *)

Lemma in_insert_key (k x : string) (keys : list string) :
  In x (insert_key k keys) <-> x = k \/ In x keys.
Proof.
  induction keys as [|k' keys IH]; cbn.
  - intuition.
  - destruct (String.compare k k') eqn:Hc; cbn.
    + apply String.compare_eq_iff in Hc. subst. intuition.
    + intuition.
    + rewrite IH. intuition.
Qed.

Lemma in_group_keys (x : string) (values : list string) :
  In x (group_keys values) <-> In x values.
Proof.
  unfold group_keys. induction values as [|v values IH]; cbn; [reflexivity|].
  rewrite in_insert_key, IH. intuition.
Qed.

Lemma group_totals (g : list VRow) :
  Forall (fun v : VRow => Total_Violations v =
                          b2z (Day_Violation v) + b2z (Night_Violation v)) g ->
  Zsum (map Total_Violations g) =
  bsum (map Day_Violation g) + bsum (map Night_Violation g).
Proof.
  induction 1 as [|v g Hv _ IH]; [reflexivity|].
  cbn [map Zsum bsum fold_right].
  fold (Zsum (map Total_Violations g)).
  fold (bsum (map Day_Violation g)). fold (bsum (map Night_Violation g)).
  lia.
Qed.

(** C10: in the zone-wise roll-up of the annotated rows every zone type
    present has one group, and in every group the sum of [Total Violations]
    is the sum of [Day Violation] plus the sum of [Night Violation]. *)
Theorem zone_violations_total (month_data : list Row) :
  Forall
    (fun z => zv_Total_Violations z = zv_Day_Violation z + zv_Night_Violation z)
    (zone_violations (violation_data month_data)) /\
  forall ty, In ty (map zv_Type (zone_violations (violation_data month_data))) <->
             In ty (map (fun r : Row => Type_ r) month_data).
Proof.
  split.
  - unfold zone_violations. apply Forall_map, Forall_forall. intros ty _.
    cbn. apply group_totals. unfold group_of.
    apply Forall_forall. intros v Hv. apply filter_In in Hv. destruct Hv as [Hv _].
    unfold violation_data in Hv. apply in_map_iff in Hv.
    destruct Hv as [r [<- _]]. reflexivity.
  - intros ty. unfold zone_violations. rewrite map_map. cbn. rewrite map_id.
    rewrite in_group_keys. unfold violation_data. rewrite map_map. cbn.
    reflexivity.
Qed.

(** * More on the loader *)

Lemma month_name_Ok_iff (x : Z) :
  (exists s, month_name x = Ok s) <-> -13 <= x <= 12.
Proof.
  split.
  - intros [s Hs]. unfold month_name in Hs.
    change (Z.of_nat (List.length month_names)) with 13 in Hs.
    destruct (x <? 0) eqn:Hneg;
      [apply Z.ltb_lt in Hneg | apply Z.ltb_ge in Hneg];
      destruct ((0 <=? _) && (_ <? 13)) eqn:Hin; try discriminate;
      apply andb_true_iff in Hin; destruct Hin as [H1 H2];
      apply Z.leb_le in H1; apply Z.ltb_lt in H2; lia.
  - intros H.
    assert (Hx : x = -13 \/ x = -12 \/ x = -11 \/ x = -10 \/ x = -9 \/ x = -8 \/
                 x = -7 \/ x = -6 \/ x = -5 \/ x = -4 \/ x = -3 \/ x = -2 \/
                 x = -1 \/ x = 0 \/ x = 1 \/ x = 2 \/ x = 3 \/ x = 4 \/ x = 5 \/
                 x = 6 \/ x = 7 \/ x = 8 \/ x = 9 \/ x = 10 \/ x = 11 \/ x = 12)
      by lia.
    repeat (destruct Hx as [Hx|Hx]; [subst; eexists; reflexivity|]).
    subst; eexists; reflexivity.
Qed.

Lemma mapM_add_MonthName_names (l : list Merged) (df : list Row) :
  mapM add_MonthName l = Ok df ->
  Forall (fun row : Row => month_name (Month row) = Ok (MonthName row)) df.
Proof.
  revert df. induction l as [|m l IH]; intros df; cbn.
  - intros H; inversion H; constructor.
  - unfold add_MonthName at 1.
    destruct (month_name (Month m)) as [name|] eqn:Hn; [cbn|discriminate].
    destruct (mapM add_MonthName l) as [bs|]; [cbn|discriminate].
    intros H; inversion H; subst. constructor; [exact Hn | now apply IH].
Qed.

Lemma mapM_add_MonthName_Ok_iff (l : list Merged) :
  (exists df, mapM add_MonthName l = Ok df) <->
  Forall (fun m => -13 <= Month m <= 12) l.
Proof.
  induction l as [|m l IH]; cbn.
  - split; [constructor | eauto].
  - unfold add_MonthName at 1. split.
    + intros [df H].
      destruct (month_name (Month m)) as [name|] eqn:Hn; [cbn in H|discriminate].
      destruct (mapM add_MonthName l) as [bs|]; [|discriminate].
      constructor; [apply month_name_Ok_iff; eauto | apply IH; eauto].
    + intros H. inversion H as [|? ? Hm Hl]; subst.
      apply month_name_Ok_iff in Hm. destruct Hm as [name Hn].
      apply IH in Hl. destruct Hl as [bs Hbs].
      rewrite Hn. cbn. rewrite Hbs. cbn. eauto.
Qed.

(** X1: whatever [load_data] returns is the merged table with one more
    column: both files were read, the rows are the rows of the merge in the
    same order, and every row's [MonthName] is the calendar name of its
    [Month]. *)
Theorem load_data_Ok_inv
  (stations_csv : result (list StationRow))
  (station_month_csv : result (list ReadingRow)) (df : list Row) :
  load_data stations_csv station_month_csv = Ok df ->
  exists stations_df monthly_data,
    stations_csv = Ok stations_df /\
    station_month_csv = Ok monthly_data /\
    map cols df = merge monthly_data stations_df /\
    Forall (fun row : Row => month_name (Month row) = Ok (MonthName row)) df.
Proof.
  unfold load_data.
  destruct stations_csv as [S|]; [|discriminate].
  destruct station_month_csv as [R|]; [|discriminate].
  cbn [bind].
  destruct (mapM add_MonthName (merge R S)) as [df'|] eqn:Hm; [|discriminate].
  intros H; inversion H; subst df'.
  exists S, R. repeat split.
  - exact (mapM_add_MonthName_cols _ _ Hm).
  - exact (mapM_add_MonthName_names _ _ Hm).
Qed.

Lemma load_data_Ok_inv_witness :
  exists df,
    load_data (Ok sample_stations) (Ok sample_readings) = Ok df /\
    map MonthName df = ["January"; "February"]%string /\
    Forall (fun row : Row => month_name (Month row) = Ok (MonthName row)) df.
Proof.
  eexists. split; [reflexivity|]. split; [reflexivity|].
  destruct (load_data_Ok_inv (Ok sample_stations) (Ok sample_readings) _ eq_refl)
    as (S & R & _ & _ & _ & H).
  exact H.
Defined.

(** X2: the only failure of [load_data] is [st.stop()], and on readable
    files it happens exactly when some merged row has a month that
    [calendar.month_name] cannot index (outside -13..12); a bad month on a
    reading whose station is unknown does no harm, because names are looked
    up after the merge. *)
Theorem load_data_stops_iff
  (stations_df : list StationRow) (monthly_data : list ReadingRow) :
  (forall a b e, load_data a b = Raise e -> e = StopException) /\
  ((exists df, load_data (Ok stations_df) (Ok monthly_data) = Ok df) <->
   Forall (fun m => -13 <= Month m <= 12) (merge monthly_data stations_df)) /\
  (load_data (Ok stations_df) (Ok monthly_data) = Raise StopException <->
   Exists (fun m => ~ -13 <= Month m <= 12) (merge monthly_data stations_df)).
Proof.
  assert (Hexn : forall a b e, load_data a b = Raise e -> e = StopException).
  { intros a b e. unfold load_data.
    destruct (_ <- a ;; _) as [df|e']; intros H; inversion H; reflexivity. }
  assert (Hok : (exists df, load_data (Ok stations_df) (Ok monthly_data) = Ok df) <->
                Forall (fun m => -13 <= Month m <= 12)
                       (merge monthly_data stations_df)).
  { rewrite <- mapM_add_MonthName_Ok_iff. unfold load_data. cbn [bind].
    destruct (mapM add_MonthName (merge monthly_data stations_df)) as [df|e].
    - split; eauto.
    - split; intros [df H]; discriminate. }
  split; [exact Hexn|]. split; [exact Hok|].
  rewrite Exists_Forall_neg by (intros m; lia).
  rewrite <- Hok. split.
  - intros H [df Hdf]. congruence.
  - intros H. destruct (load_data (Ok stations_df) (Ok monthly_data)) as [df|e] eqn:E.
    + exfalso. apply H. eauto.
    + now rewrite (Hexn _ _ _ E).
Qed.

Lemma filter_unique_station (stations : list StationRow) (k : string) :
  NoDup (map s_Station stations) ->
  (filter (fun r => String.eqb (s_Station r) k) stations = [] /\
   existsb (fun r => String.eqb (s_Station r) k) stations = false) \/
  (exists r, filter (fun r => String.eqb (s_Station r) k) stations = [r] /\
             existsb (fun r => String.eqb (s_Station r) k) stations = true).
Proof.
  induction stations as [|r stations IH]; cbn; intros Hnd; [now left|].
  inversion Hnd as [|? ? Hnotin Hnd']; subst.
  destruct (String.eqb (s_Station r) k) eqn:He.
  - right. exists r. split; [|reflexivity]. f_equal.
    apply String.eqb_eq in He. subst k.
    apply filter_none. apply Forall_forall. intros r' Hr'.
    apply String.eqb_neq. intros E. apply Hnotin. rewrite <- E.
    now apply in_map.
  - cbn. now apply IH.
Qed.

(** X3: when the station table has no station twice, the merge neither
    duplicates nor reorders readings: the reading columns of the merged
    table are the readings with a known station, in their original order. *)
Theorem merge_unique_stations
  (monthly_data : list ReadingRow) (stations_df : list StationRow) :
  NoDup (map s_Station stations_df) ->
  map reading_part (merge monthly_data stations_df) =
  filter (known_station stations_df) monthly_data.
Proof.
  intros Hnd. unfold merge.
  induction monthly_data as [|l R IH]; [reflexivity|].
  cbn [flat_map filter]. rewrite map_app, IH. unfold known_station at 2.
  destruct (filter_unique_station stations_df (r_Station l) Hnd)
    as [[Hf He]|[r [Hf He]]]; rewrite Hf, He; cbn [map app].
  - reflexivity.
  - f_equal. destruct l; reflexivity.
Qed.

Lemma merge_unique_stations_witness :
  NoDup (map s_Station sample_stations) /\
  map reading_part (merge sample_readings sample_stations) =
  [mkReadingRow "S1" 1 50 40; mkReadingRow "S1" 2 60 50]%string.
Proof.
  assert (H : NoDup (map s_Station sample_stations)).
  { cbn. repeat constructor; cbn; intuition discriminate. }
  split; [exact H|].
  rewrite (merge_unique_stations sample_readings sample_stations H).
  reflexivity.
Defined.

(** * More on the period sliders *)

Lemma select_slider_not_in (options : list Z) (value : Z) (pick : option nat) :
  options <> [] -> ~ In value options ->
  select_slider options value pick = Raise ValueError.
Proof.
  intros Hne Hnot. unfold select_slider.
  destruct options as [|o os]; [now contradiction Hne|].
  destruct (mem value (o :: os)) eqn:Hm; [|reflexivity].
  apply mem_In in Hm. contradiction.
Qed.

Lemma range_nonempty (a b : Z) : a < b -> range a b <> [].
Proof.
  intros H E. assert (Hin : In a (range a b)) by (apply in_range; lia).
  rewrite E in Hin. destruct Hin.
Qed.

Lemma range_cons (a b : Z) : a < b -> range a b = a :: range (a + 1) b.
Proof.
  intros H. unfold range.
  replace (Z.to_nat (b - a)) with (S (Z.to_nat (b - (a + 1)))) by lia.
  cbn [seq map]. f_equal; [lia|].
  rewrite <- seq_shift, map_map. apply map_ext. intros i. lia.
Qed.

Lemma range_sorted (a b : Z) : StronglySorted Z.lt (range a b).
Proof.
  remember (Z.to_nat (b - a)) as n eqn:Hn. revert a Hn.
  induction n as [|n IH]; intros a Hn.
  - rewrite range_empty by lia. constructor.
  - rewrite range_cons by lia. constructor.
    + apply IH. lia.
    + apply Forall_forall. intros x Hx. apply in_range in Hx. lia.
Qed.

Lemma StronglySorted_app {A : Type} (R : A -> A -> Prop) (l1 l2 : list A) :
  StronglySorted R l1 -> StronglySorted R l2 ->
  (forall x y, In x l1 -> In y l2 -> R x y) ->
  StronglySorted R (l1 ++ l2).
Proof.
  induction 1 as [|x l1 Hs IH Hx]; intros H2 Hcross; cbn; [exact H2|].
  constructor.
  - apply IH; [exact H2|]. intros a b Ha Hb. apply Hcross; [now right | exact Hb].
  - apply Forall_app. split; [exact Hx|].
    apply Forall_forall. intros y Hy. apply Hcross; [now left | exact Hy].
Qed.

(** X4: from February to November the period sliders fail in one way only.
    The before sliders and the after-start slider always return; the
    after-end slider is given the default [min(12, selected_month + 3)]
    whatever the after period's start, so the script goes through when the
    chosen start is at most that default and stops with a [ValueError] when
    the user starts the after period later than that. *)
Theorem resolve_periods_after_start (selected_month : Z) (u : Picks) :
  2 <= selected_month <= 11 ->
  exists after_start,
    select_slider (range (selected_month + 1) 13) (selected_month + 1)
                  (pick_after_start u) = Ok after_start /\
    selected_month < after_start <= 12 /\
    (after_start <= Z.min 12 (selected_month + 3) ->
     exists P, resolve_periods selected_month u = Ok P) /\
    (Z.min 12 (selected_month + 3) < after_start ->
     resolve_periods selected_month u = Raise ValueError).
Proof.
  intros Hm. unfold resolve_periods.
  destruct (select_slider_total (range 1 selected_month)
              (Z.max 1 (selected_month - 3)) (pick_before_start u)) as [bs Hbs].
  { apply in_range. lia. }
  rewrite Hbs. cbn [bind].
  apply select_slider_Ok_In, in_range in Hbs.
  destruct (select_slider_total (range bs selected_month) (selected_month - 1)
              (pick_before_end u)) as [be Hbe].
  { apply in_range. lia. }
  rewrite Hbe. cbn [bind].
  destruct (select_slider_total (range (selected_month + 1) 13)
              (selected_month + 1) (pick_after_start u)) as [a Ha].
  { apply in_range. lia. }
  rewrite Ha. cbn [bind].
  exists a. split; [reflexivity|].
  apply select_slider_Ok_In, in_range in Ha.
  split; [lia|]. split.
  - intros Hle.
    destruct (select_slider_total (range a 13) (Z.min 12 (selected_month + 3))
                (pick_after_end u)) as [ae Hae].
    { apply in_range. lia. }
    rewrite Hae. cbn [bind]. unfold periods_of_bounds. eauto.
  - intros Hgt. rewrite select_slider_not_in; [reflexivity| |].
    + apply range_nonempty. lia.
    + intros Hin. apply in_range in Hin. lia.
Qed.

Lemma resolve_periods_after_start_witness :
  2 <= 6 <= 11 /\
  resolve_periods 6 (mkPicks None None (Some 4%nat) None) = Raise ValueError.
Proof.
  assert (H : 2 <= 6 <= 11) by lia.
  split; [exact H|].
  destruct (resolve_periods_after_start 6 (mkPicks None None (Some 4%nat) None) H)
    as (a & Ha & _ & _ & Hbad).
  apply Hbad. vm_compute in Ha. inversion Ha. reflexivity.
Defined.

(** X6: whenever the period sliders all return, the selected month is
    between February and November, neither period is empty, and the
    comparison months are calendar months in strictly increasing order. *)
Theorem resolve_periods_Ok_shape (selected_month : Z) (u : Picks) (P : Periods) :
  resolve_periods selected_month u = Ok P ->
  2 <= selected_month <= 11 /\
  before_months P <> [] /\
  after_months P <> [] /\
  StronglySorted Z.lt (comparison_months P) /\
  Forall (fun m => 1 <= m <= 12) (comparison_months P).
Proof.
  intros H. apply resolve_periods_Ok_inv in H.
  destruct H as (bs & be & a_s & ae & H1 & H2 & H3 & H4 & ->).
  apply in_range in H1, H2, H3, H4. cbn.
  split; [lia|].
  split; [apply range_nonempty; lia|].
  split; [apply range_nonempty; lia|].
  split.
  - apply StronglySorted_app; [apply range_sorted| |].
    + constructor; [apply range_sorted|].
      apply Forall_forall. intros x Hx. apply in_range in Hx. lia.
    + intros x y Hx [<-|Hy]; apply in_range in Hx; [lia|].
      apply in_range in Hy. lia.
  - apply Forall_app. split; [|constructor; [lia|]];
      apply Forall_forall; intros x Hx; apply in_range in Hx; lia.
Qed.

Lemma resolve_periods_Ok_shape_witness :
  resolve_periods 6 (mkPicks None None None None) =
    Ok (comparison_periods 6 3 5 7 9) /\
  StronglySorted Z.lt (comparison_months (comparison_periods 6 3 5 7 9)).
Proof.
  split; [reflexivity|].
  exact (proj1 (proj2 (proj2 (proj2
           (resolve_periods_Ok_shape 6 (mkPicks None None None None) _
              eq_refl))))).
Defined.

(** * The period filters *)

Lemma mem_app (x : Z) (l1 l2 : list Z) : mem x (l1 ++ l2) = mem x l1 || mem x l2.
Proof. apply existsb_app. Qed.

Lemma mem_singleton (x m : Z) : mem x [m] = (x =? m).
Proof. cbn. apply orb_false_r. Qed.

Lemma filter_twice {A : Type} (p q : A -> bool) (l : list A) :
  filter p (filter q l) = filter (fun x => q x && p x) l.
Proof.
  induction l as [|a l IH]; cbn; [reflexivity|].
  destruct (q a); cbn; [|exact IH]. destruct (p a); now rewrite IH.
Qed.

Lemma filter_three_way {A : Type} (p p1 p2 p3 : A -> bool) (l : list A) :
  (forall x, p x = p1 x || p2 x || p3 x) ->
  (forall x, p1 x = true -> p2 x = false /\ p3 x = false) ->
  (forall x, p2 x = true -> p3 x = false) ->
  Permutation (filter p l) (filter p1 l ++ filter p2 l ++ filter p3 l).
Proof.
  intros Hp H1 H2. induction l as [|a l IH]; cbn; [constructor|].
  rewrite Hp. destruct (p1 a) eqn:E1.
  - destruct (H1 a E1) as [-> ->]. cbn. now constructor.
  - destruct (p2 a) eqn:E2.
    + rewrite (H2 a E2). cbn. now apply Permutation_cons_app.
    + destruct (p3 a) eqn:E3; cbn; [|exact IH].
      rewrite app_assoc. apply Permutation_cons_app. now rewrite <- app_assoc.
Qed.

(** X7: when the before period ends before the selected month and the after
    period starts after it, the rows behind the comparison chart are the
    rows of the before period, of the selected month and of the after
    period put together, no row counted twice. *)
Theorem comparison_data_partition
  (cd : list Row) (types : list string)
  (selected_month before_start before_end after_start after_end : Z) :
  before_end < selected_month -> selected_month < after_start ->
  let P := comparison_periods selected_month before_start before_end
                              after_start after_end in
  Permutation (comparison_data cd P types)
              (before_data cd P types ++
               current_data cd selected_month types ++
               after_data cd P types) /\
  len (comparison_data cd P types) =
  len (before_data cd P types) + len (current_data cd selected_month types) +
  len (after_data cd P types).
Proof.
  intros Hb Ha P.
  assert (Hperm : Permutation (comparison_data cd P types)
                    (before_data cd P types ++
                     current_data cd selected_month types ++
                     after_data cd P types)).
  { unfold comparison_data, before_data, after_data, current_data, month_data,
      period_data.
    apply filter_three_way.
    - intros r. cbn [P comparison_periods comparison_months before_months
                     after_months].
      rewrite !mem_app, mem_singleton.
      destruct (mem (Month r) (range before_start (before_end + 1))),
        (Month r =? selected_month),
        (mem (Month r) (range after_start (after_end + 1))),
        (isin (Type_ r) types); reflexivity.
    - intros r H. apply andb_true_iff in H. destruct H as [H _].
      apply mem_In, in_range in H. cbn [P comparison_periods after_months].
      split; apply andb_false_iff; left.
      + apply Z.eqb_neq. lia.
      + apply not_true_iff_false. intros H'. apply mem_In, in_range in H'. lia.
    - intros r H. apply andb_true_iff in H. destruct H as [H _].
      apply Z.eqb_eq in H. cbn [P comparison_periods after_months].
      apply andb_false_iff; left.
      apply not_true_iff_false. intros H'. apply mem_In, in_range in H'. lia. }
  split; [exact Hperm|].
  unfold len. rewrite (Permutation_length Hperm), !length_app. lia.
Qed.

Lemma comparison_data_partition_witness :
  5 < 6 /\ 6 < 7 /\
  len (comparison_data night_only (comparison_periods 6 3 5 7 9)
                       ["Residential"%string]) = 0 + 2 + 0.
Proof.
  assert (H1 : 5 < 6) by lia. assert (H2 : 6 < 7) by lia.
  split; [exact H1|]. split; [exact H2|].
  exact (proj2 (comparison_data_partition night_only ["Residential"%string]
                  6 3 5 7 9 H1 H2)).
Defined.

(** * Monthly means *)

Lemma in_insert_month (m x : Z) (keys : list Z) :
  In x (insert_month m keys) <-> x = m \/ In x keys.
Proof.
  induction keys as [|k keys IH]; cbn.
  - intuition.
  - destruct (m ?= k) eqn:Hc; cbn.
    + apply Z.compare_eq in Hc. subst. intuition.
    + intuition.
    + rewrite IH. intuition.
Qed.

Lemma in_month_keys (x : Z) (months : list Z) :
  In x (month_keys months) <-> In x months.
Proof.
  unfold month_keys. induction months as [|m months IH]; cbn; [reflexivity|].
  rewrite in_insert_month, IH. intuition.
Qed.

Lemma insert_month_sorted (m : Z) (keys : list Z) :
  StronglySorted Z.lt keys -> StronglySorted Z.lt (insert_month m keys).
Proof.
  induction 1 as [|k keys Hs IH Hk]; cbn.
  - constructor; constructor.
  - destruct (m ?= k) eqn:Hc.
    + now constructor.
    + apply Z.compare_lt_iff in Hc.
      constructor; [now constructor|].
      constructor; [exact Hc|].
      eapply Forall_impl; [|exact Hk]. intros z Hz.
      eapply Z.lt_trans; eassumption.
    + apply Z.compare_gt_iff in Hc.
      constructor; [exact IH|].
      apply Forall_forall. intros z Hz. apply in_insert_month in Hz.
      destruct Hz as [->|Hz]; [exact Hc|].
      eapply Forall_forall in Hk; eassumption.
Qed.

Lemma month_keys_sorted (months : list Z) :
  StronglySorted Z.lt (month_keys months).
Proof.
  unfold month_keys. induction months as [|m months IH]; cbn.
  - constructor.
  - now apply insert_month_sorted.
Qed.

Lemma insert_month_below (m : Z) (keys : list Z) :
  Forall (Z.lt m) keys -> insert_month m keys = m :: keys.
Proof.
  intros H. destruct keys as [|k keys]; [reflexivity|].
  inversion H as [|? ? Hk _]; subst. cbn.
  apply Z.compare_lt_iff in Hk. now rewrite Hk.
Qed.

Lemma filter_insert_month (p : Z -> bool) (m : Z) (keys : list Z) :
  StronglySorted Z.lt keys ->
  filter p (insert_month m keys) =
  if p m then insert_month m (filter p keys) else filter p keys.
Proof.
  induction 1 as [|k keys Hs IH Hk].
  - cbn. destruct (p m); reflexivity.
  - cbn [insert_month]. destruct (m ?= k) eqn:Hc.
    + apply Z.compare_eq in Hc. subst k. cbn [filter].
      destruct (p m); [|reflexivity].
      cbn [insert_month]. now rewrite Z.compare_refl.
    + change (m < k) in Hc. cbn [filter].
      destruct (p m); [|reflexivity].
      symmetry. apply insert_month_below.
      apply Forall_forall. intros z Hz.
      assert (Hin : In z (k :: keys)).
      { destruct (p k); [destruct Hz as [<-|Hz]; [now left|]|];
          right; apply filter_In in Hz; tauto. }
      destruct Hin as [<-|Hin]; [exact Hc|].
      eapply Forall_forall in Hk; [|exact Hin]. lia.
    + cbn [filter]. rewrite IH.
      destruct (p k), (p m); try reflexivity.
      cbn [insert_month]. now rewrite Hc.
Qed.

Lemma filter_month_keys (p : Z -> bool) (months : list Z) :
  filter p (month_keys months) = month_keys (filter p months).
Proof.
  unfold month_keys. induction months as [|m months IH]; [reflexivity|].
  cbn [fold_right filter].
  rewrite filter_insert_month by apply month_keys_sorted.
  fold (month_keys months). unfold month_keys at 1 2. rewrite IH.
  destruct (p m); reflexivity.
Qed.

(** X8: a group-by-month table has one row per month present in the data and
    no other row, by increasing month, and every row stands for a non-empty
    group: a month without rows gets no row of its own. *)
Theorem monthly_means_groups (data : list Row) :
  StronglySorted Z.lt (map mm_Month (monthly_means data)) /\
  (forall m, In m (map mm_Month (monthly_means data)) <->
             In m (map (fun r : Row => Month r) data)) /\
  Forall (fun g => month_group (mm_Month g) data <> []) (monthly_means data).
Proof.
  assert (Hkeys : map mm_Month (monthly_means data) =
                  month_keys (map (fun r : Row => Month r) data)).
  { unfold monthly_means. rewrite map_map. cbn. apply map_id. }
  split; [rewrite Hkeys; apply month_keys_sorted|].
  split; [intros m; rewrite Hkeys; apply in_month_keys|].
  unfold monthly_means. apply Forall_map, Forall_forall. intros m Hm. cbn.
  apply in_month_keys, in_map_iff in Hm. destruct Hm as (r & Hr & Hin).
  assert (Hg : In r (month_group m data)).
  { apply filter_In. split; [exact Hin | now apply Z.eqb_eq]. }
  intros E. rewrite E in Hg. destruct Hg.
Qed.

Lemma period_data_narrow (cd : list Row) (B C : list Z) (types : list string) :
  (forall x, mem x B = true -> mem x C = true) ->
  filter (fun r : Row => mem (Month r) B) (period_data cd C types) =
  period_data cd B types.
Proof.
  intros Hsub. unfold period_data. rewrite filter_twice.
  apply filter_ext. intros r.
  destruct (mem (Month r) B) eqn:HB.
  - rewrite (Hsub _ HB). cbn. apply andb_true_r.
  - cbn. apply andb_false_r.
Qed.

Lemma chart_segment (cd : list Row) (B C : list Z) (types : list string) :
  (forall x, mem x B = true -> mem x C = true) ->
  filter (fun g => mem (mm_Month g) B) (monthly_means (period_data cd C types)) =
  monthly_means (period_data cd B types).
Proof.
  intros Hsub. unfold monthly_means.
  rewrite filter_map_swap. cbn [mm_Month].
  rewrite filter_month_keys, filter_map_swap, (period_data_narrow cd B C types Hsub).
  apply map_ext_in. intros m Hm.
  apply in_month_keys, in_map_iff in Hm. destruct Hm as (r & Hr & Hin).
  assert (HmB : mem m B = true).
  { unfold period_data in Hin. apply filter_In in Hin. destruct Hin as [_ Hin].
    apply andb_true_iff in Hin. now rewrite <- Hr. }
  assert (Hg : month_group m (period_data cd C types) =
               month_group m (period_data cd B types)).
  { rewrite <- (period_data_narrow cd B C types Hsub).
    unfold month_group. rewrite filter_twice. apply filter_ext_in.
    intros r' _. destruct (Month r' =? m) eqn:E; [|now rewrite andb_false_r].
    apply Z.eqb_eq in E. rewrite E, HmB. reflexivity. }
  now rewrite Hg.
Qed.

(** X9: the three segments of the comparison chart, cut out of the monthly
    means of all comparison rows, are the monthly means of the before
    period's rows, of the selected month's rows and of the after period's
    rows: pooling the periods before averaging changes no plotted value. *)
Theorem chart_segments
  (cd : list Row) (types : list string)
  (selected_month before_start before_end after_start after_end : Z) :
  let P := comparison_periods selected_month before_start before_end
                              after_start after_end in
  chart_before cd P types = monthly_means (before_data cd P types) /\
  chart_selected cd selected_month P types =
    monthly_means (current_data cd selected_month types) /\
  chart_after cd P types = monthly_means (after_data cd P types).
Proof.
  intros P.
  unfold chart_before, chart_selected, chart_after, comparison_avg,
    comparison_data, before_data, after_data.
  cbn [P comparison_periods comparison_months before_months after_months].
  split; [|split].
  - apply chart_segment. intros x Hx. rewrite mem_app, Hx. reflexivity.
  - replace (current_data cd selected_month types)
      with (period_data cd [selected_month] types).
    + rewrite <- (chart_segment cd [selected_month]
                    (range before_start (before_end + 1) ++
                     [selected_month] ++ range after_start (after_end + 1)) types).
      * apply filter_ext. intros g. now rewrite mem_singleton.
      * intros x Hx. rewrite !mem_app, Hx. apply orb_true_iff. right. reflexivity.
    + unfold current_data, month_data, period_data. apply filter_ext.
      intros r. now rewrite mem_singleton.
  - apply chart_segment. intros x Hx. rewrite !mem_app, Hx.
    now rewrite !orb_true_r.
Qed.

(** * Bounds on the violation figures *)

Lemma bsum_le_len (column : list bool) : 0 <= bsum column <= len column.
Proof.
  unfold len. induction column as [|b l IH]; cbn [bsum fold_right List.length].
  - cbn. lia.
  - fold (bsum l). pose proof (b2z_range b). lia.
Qed.

Lemma bsum_map_le_len {A : Type} (f : A -> bool) (l : list A) :
  0 <= bsum (map f l) <= len l.
Proof.
  pose proof (bsum_le_len (map f l)) as H. unfold len in *.
  now rewrite length_map in H.
Qed.

(** X11: for a non-empty selection the violation percentage is a finite
    number between 0 and 100. *)
Theorem violation_perc_bounds (month_data : list Row) :
  month_data <> [] ->
  exists q, violation_perc month_data = Fin q /\ (0 <= q <= 100)%Q.
Proof.
  intros Hne.
  assert (Hlen : 0 < len month_data).
  { destruct month_data; [now contradiction Hne | unfold len; cbn; lia]. }
  pose proof (bsum_map_le_len (fun r : Row => Qgtb (Day r) (DayLimit r)) month_data)
    as Hd.
  pose proof (bsum_map_le_len (fun r : Row => Qgtb (Night r) (NightLimit r))
                month_data) as Hn.
  unfold violation_perc, violation_perc_divisor.
  rewrite true_divide_nonzero by lia. cbn [fmul].
  eexists. split; [reflexivity|].
  set (a := bsum _ + bsum _) in *.
  assert (Hb : (0 < inject_Z (len month_data * 2))%Q).
  { rewrite <- (Zlt_Qlt 0). lia. }
  split.
  - apply Qmult_le_0_compat; [|discriminate].
    apply Qle_shift_div_l; [exact Hb|].
    rewrite Qmult_0_l. rewrite <- (Zle_Qle 0). lia.
  - setoid_replace 100%Q with (1 * 100)%Q at 2 by reflexivity.
    apply Qmult_le_compat_r; [|discriminate].
    apply Qle_shift_div_r; [exact Hb|].
    rewrite Qmult_1_l. rewrite <- Zle_Qle. lia.
Qed.

Lemma violation_perc_bounds_witness :
  night_only <> [] /\
  exists q, violation_perc night_only = Fin q /\ (0 <= q <= 100)%Q.
Proof.
  assert (H : night_only <> []) by discriminate.
  split; [exact H|].
  exact (violation_perc_bounds night_only H).
Defined.

(** X12: the number of records in violation is at least the number of day
    violations and at least the number of night violations, at most their
    sum, and at most the number of records. *)
Theorem period_violations_bounds (data : list Row) :
  day_violations (violation_data data) <= period_violations data /\
  night_violations (violation_data data) <= period_violations data /\
  period_violations data <=
    day_violations (violation_data data) + night_violations (violation_data data) /\
  period_violations data <= len data.
Proof.
  rewrite day_violations_month_data, night_violations_month_data.
  split; [|split; [|split]];
    try (unfold period_violations; apply bsum_map_le_len);
    unfold period_violations;
    induction data as [|r data IH]; cbn [map bsum fold_right]; try lia;
    fold (bsum (map (fun r : Row => Qgtb (Day r) (DayLimit r)) data)) in *;
    fold (bsum (map (fun r : Row => Qgtb (Night r) (NightLimit r)) data)) in *;
    fold (bsum (map (fun r : Row => Qgtb (Day r) (DayLimit r) ||
                                    Qgtb (Night r) (NightLimit r)) data)) in *;
    destruct (Qgtb (Day r) (DayLimit r)), (Qgtb (Night r) (NightLimit r));
    cbn [orb b2z]; lia.
Qed.

(** * More on the month-over-month change *)

Lemma fsub_NaN_r (x : float64) : fsub x NaN = NaN.
Proof. destruct x; reflexivity. Qed.

(** X13: the metric gets no change exactly when the selected month is
    January (or lower); from February on a change is always passed, and when
    the city has no row at all in the month before, that change is [nan]. *)
Theorem average_metric_delta_cases
  (col : Row -> Q) (cd md : list Row) (selected_month : Z) :
  (metric_delta (average_metric col cd md selected_month) = None <->
   selected_month <= 1) /\
  (1 < selected_month ->
   filter (fun r : Row => Month r =? selected_month - 1) cd = [] ->
   metric_delta (average_metric col cd md selected_month) = Some NaN).
Proof.
  unfold average_metric. split.
  - destruct (1 <? selected_month) eqn:H; cbn.
    + apply Z.ltb_lt in H. split; [discriminate | lia].
    + apply Z.ltb_ge in H. split; [intros _; exact H | reflexivity].
  - intros H Hprev. apply Z.ltb_lt in H. rewrite H, Hprev. cbn.
    now rewrite fsub_NaN_r.
Qed.

Lemma average_metric_delta_cases_witness :
  1 < 6 /\
  metric_delta (day_metric (city_data delta_df "Delhi")
                  (month_data (city_data delta_df "Delhi") 6 ["Residential"%string])
                  6) = Some NaN.
Proof.
  assert (H : 1 < 6) by lia.
  split; [exact H|].
  apply (proj2 (average_metric_delta_cases (fun r : Row => Day r)
                  (city_data delta_df "Delhi")
                  (month_data (city_data delta_df "Delhi") 6 ["Residential"%string])
                  6) H).
  reflexivity.
Defined.

(** * Group keys *)

Lemma string_compare_refl (s : string) : String.compare s s = Eq.
Proof.
  induction s as [|a s IH]; cbn; [reflexivity|].
  unfold Ascii.compare. now rewrite N.compare_refl.
Qed.

Lemma string_lt_trans (a b c : string) :
  string_lt a b -> string_lt b c -> string_lt a c.
Proof.
  unfold string_lt. revert b c.
  induction a as [|x a IH]; intros [|y b] [|z c]; cbn; try easy.
  destruct (Ascii.compare x y) eqn:Hxy; try discriminate.
  - apply Ascii.compare_eq_iff in Hxy. subst y.
    destruct (Ascii.compare x z); try easy. apply IH.
  - intros _. destruct (Ascii.compare y z) eqn:Hyz; try discriminate.
    + apply Ascii.compare_eq_iff in Hyz. subst z. now rewrite Hxy.
    + intros _. unfold Ascii.compare in *.
      apply N.compare_lt_iff in Hxy, Hyz.
      assert (H : (N_of_ascii x ?= N_of_ascii z)%N = Lt).
      { apply N.compare_lt_iff. eapply N.lt_trans; eassumption. }
      now rewrite H.
Qed.

Lemma insert_key_sorted (k : string) (keys : list string) :
  StronglySorted string_lt keys -> StronglySorted string_lt (insert_key k keys).
Proof.
  induction 1 as [|k' keys Hs IH Hk]; cbn.
  - constructor; constructor.
  - destruct (String.compare k k') eqn:Hc.
    + now constructor.
    + constructor; [now constructor|].
      constructor; [exact Hc|].
      eapply Forall_impl; [|exact Hk]. intros z Hz.
      eapply string_lt_trans; eassumption.
    + constructor; [exact IH|].
      apply Forall_forall. intros z Hz. apply in_insert_key in Hz.
      destruct Hz as [->|Hz].
      * unfold string_lt. rewrite String.compare_antisym, Hc. reflexivity.
      * eapply Forall_forall in Hk; eassumption.
Qed.

Lemma group_keys_sorted (values : list string) :
  StronglySorted string_lt (group_keys values).
Proof.
  unfold group_keys. induction values as [|v values IH]; cbn.
  - constructor.
  - now apply insert_key_sorted.
Qed.

Lemma sorted_NoDup (keys : list string) :
  StronglySorted string_lt keys -> NoDup keys.
Proof.
  induction 1 as [|k keys Hs IH Hk]; constructor; [|exact IH].
  intros Hin. eapply Forall_forall in Hk; [|exact Hin].
  unfold string_lt in Hk. rewrite string_compare_refl in Hk. discriminate.
Qed.

Lemma isin_In (s : string) (values : list string) :
  isin s values = true <-> In s values.
Proof.
  unfold isin. rewrite existsb_exists. split.
  - intros [y [Hy He]]. apply String.eqb_eq in He. now subst.
  - intros H. exists s. split; [assumption | apply String.eqb_refl].
Qed.

(** * The roll-up against the overall counts *)

Lemma Zsum_zero {A : Type} (l : list A) : Zsum (map (fun _ => 0) l) = 0.
Proof. induction l as [|a l IH]; cbn; [reflexivity|]. exact IH. Qed.

Lemma Zsum_add {A : Type} (f g : A -> Z) (l : list A) :
  Zsum (map (fun a => f a + g a) l) = Zsum (map f l) + Zsum (map g l).
Proof.
  induction l as [|a l IH]; [reflexivity|].
  cbn [map Zsum fold_right].
  fold (Zsum (map (fun a => f a + g a) l)).
  fold (Zsum (map f l)). fold (Zsum (map g l)). lia.
Qed.

Lemma Zsum_indicator (x : string) (c : Z) (keys : list string) :
  NoDup keys ->
  Zsum (map (fun k => if String.eqb x k then c else 0) keys) =
  if isin x keys then c else 0.
Proof.
  induction 1 as [|k keys Hnotin Hnd IH]; [reflexivity|].
  cbn [map Zsum fold_right isin existsb].
  fold (Zsum (map (fun k => if String.eqb x k then c else 0) keys)).
  fold (isin x keys). rewrite IH.
  destruct (String.eqb x k) eqn:He; cbn [orb]; [|lia].
  apply String.eqb_eq in He. subst k.
  destruct (isin x keys) eqn:Hin; [|lia].
  apply isin_In in Hin. contradiction.
Qed.

Lemma group_sums (f : VRow -> Z) (keys : list string) (vd : list VRow) :
  NoDup keys ->
  (forall v, In v vd -> In (Type_ v) keys) ->
  Zsum (map (fun ty => Zsum (map f (group_of ty vd))) keys) = Zsum (map f vd).
Proof.
  intros Hnd. induction vd as [|v vd IH]; intros Hcover.
  - cbn. apply Zsum_zero.
  - cbn [map Zsum fold_right]. fold (Zsum (map f vd)).
    rewrite <- IH by (intros v' Hv'; apply Hcover; now right).
    assert (Hin : isin (Type_ v) keys = true)
      by (apply isin_In, Hcover; now left).
    transitivity
      (Zsum (map (fun k => if String.eqb (Type_ v) k then f v else 0) keys) +
       Zsum (map (fun ty => Zsum (map f (group_of ty vd))) keys)).
    + rewrite <- Zsum_add. f_equal. apply map_ext. intros ty.
      unfold group_of. cbn [filter].
      destruct (String.eqb (Type_ v) ty); reflexivity.
    + rewrite Zsum_indicator by exact Hnd. now rewrite Hin.
Qed.

Lemma bsum_Zsum {A : Type} (b : A -> bool) (l : list A) :
  bsum (map b l) = Zsum (map (fun a => b2z (b a)) l).
Proof.
  induction l as [|a l IH]; [reflexivity|].
  cbn [map bsum Zsum fold_right].
  fold (bsum (map b l)). fold (Zsum (map (fun a => b2z (b a)) l)). lia.
Qed.

(** X14: the zone-wise roll-up loses and duplicates nothing: its rows are by
    increasing zone type, no type twice, and over all zone types the day
    violations add up to the overall day violations, the night violations to
    the overall night violations, and the totals to the sum of the
    per-record totals. *)
Theorem zone_violations_add_up (vd : list VRow) :
  StronglySorted string_lt (map zv_Type (zone_violations vd)) /\
  Zsum (map zv_Day_Violation (zone_violations vd)) = day_violations vd /\
  Zsum (map zv_Night_Violation (zone_violations vd)) = night_violations vd /\
  Zsum (map zv_Total_Violations (zone_violations vd)) =
  Zsum (map Total_Violations vd).
Proof.
  assert (Hs : StronglySorted string_lt
                 (group_keys (map (fun v : VRow => Type_ v) vd)))
    by apply group_keys_sorted.
  assert (Hcover : forall v, In v vd ->
                     In (Type_ v) (group_keys (map (fun v : VRow => Type_ v) vd))).
  { intros v Hv. apply in_group_keys.
    apply (in_map (fun v : VRow => Type_ v)). exact Hv. }
  pose proof (sorted_NoDup _ Hs) as Hnd.
  unfold zone_violations, day_violations, night_violations.
  rewrite !map_map. cbn [zv_Type zv_Day_Violation zv_Night_Violation
                         zv_Total_Violations].
  split; [now rewrite map_id|].
  split; [|split].
  - rewrite (bsum_Zsum Day_Violation vd).
    rewrite <- (group_sums (fun v => b2z (Day_Violation v)) _ vd Hnd Hcover).
    f_equal. apply map_ext. intros ty. apply bsum_Zsum.
  - rewrite (bsum_Zsum Night_Violation vd).
    rewrite <- (group_sums (fun v => b2z (Night_Violation v)) _ vd Hnd Hcover).
    f_equal. apply map_ext. intros ty. apply bsum_Zsum.
  - apply (group_sums Total_Violations _ vd Hnd Hcover).
Qed.

(** * The default zone-type selection *)

Lemma zone_types_cover (df : list Row) (city : string) (r : Row) :
  In r (city_data df city) -> isin (Type_ r) (zone_types df) = true.
Proof.
  intros H. apply filter_In in H. destruct H as [H _].
  apply isin_In, in_group_keys. apply (in_map (fun r : Row => Type_ r)). exact H.
Qed.

(** X15: with the multiselect at its default, every zone type of the table,
    the zone-type condition filters nothing: the rows of the selected month
    and of a period are all the city's rows of those months. *)
Theorem default_types_filter_nothing
  (df : list Row) (city : string) (selected_month : Z) (months : list Z) :
  let cd := city_data df city in
  month_data cd selected_month (zone_types df) =
    filter (fun r : Row => Month r =? selected_month) cd /\
  period_data cd months (zone_types df) =
    filter (fun r : Row => mem (Month r) months) cd.
Proof.
  intros cd. unfold month_data, period_data.
  split; apply filter_ext_in; intros r Hr;
    rewrite (zone_types_cover df city r Hr); apply andb_true_r.
Qed.

(** X16: with the default zone-type selection, and data for the month
    before, the change passed to the metric is the difference of the two
    monthly means over the same rows' filter: the prior month's missing
    zone-type condition shows only once the user narrows the selection. *)
Theorem default_types_delta
  (col : Row -> Q) (df : list Row) (city : string) (M : Z) :
  1 < M ->
  month_data (city_data df city) (M - 1) (zone_types df) <> [] ->
  metric_delta
    (average_metric col (city_data df city)
       (month_data (city_data df city) M (zone_types df)) M) =
  spec_delta col df city (zone_types df) M.
Proof.
  intros HM Hprior. rewrite average_metric_change by exact HM.
  rewrite (prior_month_all_types (city_data df city) (zone_types df) M)
    by (intros r Hr; exact (zone_types_cover df city r Hr)).
  unfold spec_delta. apply Z.ltb_lt in HM. rewrite HM.
  destruct (month_data (city_data df city) (M - 1) (zone_types df)) as [|r rs];
    [now contradiction Hprior | reflexivity].
Qed.

Lemma default_types_delta_witness :
  1 < 2 /\
  month_data (city_data delta_df "Delhi") (2 - 1) (zone_types delta_df) <> [] /\
  metric_delta
    (day_metric (city_data delta_df "Delhi")
       (month_data (city_data delta_df "Delhi") 2 (zone_types delta_df)) 2) =
  spec_delta (fun r : Row => Day r) delta_df "Delhi" (zone_types delta_df) 2.
Proof.
  assert (H1 : 1 < 2) by lia.
  assert (H2 : month_data (city_data delta_df "Delhi") (2 - 1)
                 (zone_types delta_df) <> []) by discriminate.
  split; [exact H1|]. split; [exact H2|].
  exact (default_types_delta (fun r : Row => Day r) delta_df "Delhi" 2 H1 H2).
Defined.

Lemma load_data_stops_iff_witness :
  load_data (Ok sample_stations) (Ok [mkReadingRow "S1" 13 50 40]) =
  Raise StopException.
Proof.
  apply (proj2 (proj2 (load_data_stops_iff sample_stations
                         [mkReadingRow "S1" 13 50 40]))).
  constructor. cbn. lia.
Defined.
